(** * Embed: a binary attachment of a Message (agents-ts/src/embed.ts)

    The development follows the source file top-down:

    - [Base64]  the RFC 4648 codec behind [Buffer#toString('base64')];
    - [URL]     the part of the WHATWG basic URL parser that decides
                whether [new URL(str)] throws when no base is given;
    - [got]     what the HTTP client does on the wire with the options
                embed.ts gives it;
    - [Embed]   the class itself: its constructor, [Embed.fromUri] and the
                accessors.

    Strings are byte strings (the UTF-8 image of the JavaScript string):
    every character class the code paths below look at is ASCII, and no
    byte of a multi-byte UTF-8 sequence is below 128. *)

From Stdlib Require Import Bool NArith ZArith List String Ascii Lia.
From Stdlib Require Import Strings.Byte.
From Stdlib Require Import DecimalString.
Import ListNotations.
Local Open Scope string_scope.
Local Open Scope N_scope.

(** ** Small string toolkit *)

(** [contains c s]: the character [c] occurs in [s]. *)
Fixpoint contains (c : ascii) (s : string) : bool :=
  match s with
  | EmptyString => false
  | String x rest => Ascii.eqb x c || contains c rest
  end.

(** [all_chars p s]: every character of [s] satisfies [p]. *)
Fixpoint all_chars (p : ascii -> bool) (s : string) : bool :=
  match s with
  | EmptyString => true
  | String x rest => p x && all_chars p rest
  end.

(** ** Base64 (RFC 4648, section 4) *)

Module Base64.

(** The 64-character alphabet, indexed by the 6-bit value. *)
Definition alphabet : string :=
  "ABCDEFGHIJKLMNOPQRSTUVWXYZabcdefghijklmnopqrstuvwxyz0123456789+/".

Definition pad_char : ascii := "="%char.

Definition char_of_sextet (n : N) : ascii :=
  match String.get (N.to_nat n) alphabet with
  | Some c => c
  | None => pad_char
  end.

Fixpoint index_from (i : N) (c : ascii) (s : string) : option N :=
  match s with
  | EmptyString => None
  | String x rest =>
      if Ascii.eqb x c then Some i else index_from (N.succ i) c rest
  end.

Definition sextet_of_char (c : ascii) : option N := index_from 0 c alphabet.

Definition in_alphabet (c : ascii) : bool :=
  match sextet_of_char c with Some _ => true | None => false end.

(** Characters a base64 text is made of: the alphabet and the pad. *)
Definition base64_char (c : ascii) : bool :=
  in_alphabet c || Ascii.eqb c pad_char.

Definition byte_of_N (n : N) : byte :=
  match Byte.of_N n with Some b => b | None => x00 end.

Definition ch (n : N) : string := String (char_of_sextet n) EmptyString.

(** [Buffer#toString('base64')]: three bytes give four characters; a
    final group of one or two bytes is completed with zero bits and
    padded with "=". *)
Fixpoint encode (bs : list byte) : string :=
  match bs with
  | [] => ""
  | [a] =>
      let a := Byte.to_N a in
      ch (a / 4) ++ ch ((a mod 4) * 16) ++ "=="
  | [a; b] =>
      let a := Byte.to_N a in
      let b := Byte.to_N b in
      ch (a / 4) ++ ch ((a mod 4) * 16 + b / 16) ++ ch ((b mod 16) * 4) ++ "="
  | a :: b :: c :: rest =>
      let a := Byte.to_N a in
      let b := Byte.to_N b in
      let c := Byte.to_N c in
      ch (a / 4) ++ ch ((a mod 4) * 16 + b / 16)
        ++ ch ((b mod 16) * 4 + c / 64) ++ ch (c mod 64) ++ encode rest
  end.

(** Modelled from the spec: the decoder behind the raw-byte accessor
    ("decoding malformed base64 fails with a DecodeError"), which
    embed.ts does not have.  Four characters give three bytes.  The last
    group may be padded ("xx==", "xxx=") or left unpadded ("xx", "xxx");
    the bits it carries beyond the last whole byte must be zero
    (RFC 4648, 3.5), so that every byte sequence has one padded text. *)
Definition quantum (c0 c1 c2 c3 : ascii) : option (list byte) :=
  match sextet_of_char c0, sextet_of_char c1,
        sextet_of_char c2, sextet_of_char c3 with
  | Some s0, Some s1, Some s2, Some s3 =>
      Some [byte_of_N (s0 * 4 + s1 / 16);
            byte_of_N ((s1 mod 16) * 16 + s2 / 4);
            byte_of_N ((s2 mod 4) * 64 + s3)]
  | _, _, _, _ => None
  end.

Definition final2 (c0 c1 c2 : ascii) : option (list byte) :=
  match sextet_of_char c0, sextet_of_char c1, sextet_of_char c2 with
  | Some s0, Some s1, Some s2 =>
      if s2 mod 4 =? 0
      then Some [byte_of_N (s0 * 4 + s1 / 16);
                 byte_of_N ((s1 mod 16) * 16 + s2 / 4)]
      else None
  | _, _, _ => None
  end.

Definition final1 (c0 c1 : ascii) : option (list byte) :=
  match sextet_of_char c0, sextet_of_char c1 with
  | Some s0, Some s1 =>
      if s1 mod 16 =? 0 then Some [byte_of_N (s0 * 4 + s1 / 16)] else None
  | _, _ => None
  end.

Fixpoint decode (s : string) : option (list byte) :=
  match s with
  | EmptyString => Some []
  | String _ EmptyString => None
  | String c0 (String c1 EmptyString) => final1 c0 c1
  | String c0 (String c1 (String c2 EmptyString)) => final2 c0 c1 c2
  | String c0 (String c1 (String c2 (String c3 rest))) =>
      if Ascii.eqb c3 pad_char then
        if String.eqb rest "" then
          if Ascii.eqb c2 pad_char then final1 c0 c1 else final2 c0 c1 c2
        else None
      else
        match quantum c0 c1 c2 c3, decode rest with
        | Some group, Some bytes => Some (group ++ bytes)%list
        | _, _ => None
        end
  end.

(** The grammar of the texts [decode] accepts, as a recogniser. *)
Definition low_bits_clear (k : N) (c : ascii) : bool :=
  match sextet_of_char c with
  | Some s => s mod k =? 0
  | None => false
  end.

Definition tail1 (c0 c1 : ascii) : bool :=
  in_alphabet c0 && low_bits_clear 16 c1.

Definition tail2 (c0 c1 c2 : ascii) : bool :=
  in_alphabet c0 && in_alphabet c1 && low_bits_clear 4 c2.

Fixpoint valid (s : string) : bool :=
  match s with
  | EmptyString => true
  | String _ EmptyString => false
  | String c0 (String c1 EmptyString) => tail1 c0 c1
  | String c0 (String c1 (String c2 EmptyString)) => tail2 c0 c1 c2
  | String c0 (String c1 (String c2 (String c3 rest))) =>
      if Ascii.eqb c3 pad_char then
        String.eqb rest ""
        && (if Ascii.eqb c2 pad_char then tail1 c0 c1 else tail2 c0 c1 c2)
      else
        in_alphabet c0 && in_alphabet c1 && in_alphabet c2 && in_alphabet c3
        && valid rest
  end.

(** Canonical padding: complete the text with "=" to a multiple of four
    characters. *)
Definition padding (s : string) : string :=
  match (N.of_nat (String.length s)) mod 4 with
  | 2 => "=="
  | 3 => "="
  | _ => ""
  end.

Definition pad (s : string) : string := s ++ padding s.

(** The text without its trailing "=". *)
Fixpoint strip_padding (s : string) : string :=
  match s with
  | EmptyString => EmptyString
  | String c rest =>
      match strip_padding rest with
      | EmptyString =>
          if Ascii.eqb c pad_char then EmptyString else String c EmptyString
      | kept => String c kept
      end
  end.

End Base64.

(** ** URL: does [new URL(str)] throw?

    [new URL(str)] runs the basic URL parser of the WHATWG URL Standard on
    [str] with no base URL and throws a [TypeError] when the parser
    returns failure.  The states that look for the scheme are modelled in
    full.  What follows the scheme either cannot fail (path, opaque path,
    query and fragment states) or goes through the authority, host and
    port states (and the file states), whose host parser relies on IDNA
    and IP-address parsing: that part is a parameter, [authority]. *)

Module URL.

Definition code (c : ascii) : N := N_of_ascii c.

Definition between (lo hi : N) (c : ascii) : bool :=
  (lo <=? code c) && (code c <=? hi).

(** U+0000 to U+001F, and U+0020 SPACE. *)
Definition is_C0_control_or_space (c : ascii) : bool := code c <=? 32.

(** U+0009 TAB, U+000A LF, U+000D CR. *)
Definition is_ASCII_tab_or_newline (c : ascii) : bool :=
  (code c =? 9) || (code c =? 10) || (code c =? 13).

Definition is_ASCII_upper_alpha : ascii -> bool := between 65 90.
Definition is_ASCII_lower_alpha : ascii -> bool := between 97 122.
Definition is_ASCII_digit : ascii -> bool := between 48 57.

Definition is_ASCII_alpha (c : ascii) : bool :=
  is_ASCII_upper_alpha c || is_ASCII_lower_alpha c.

Definition is_ASCII_alphanumeric (c : ascii) : bool :=
  is_ASCII_digit c || is_ASCII_alpha c.

Definition ASCII_lowercase (c : ascii) : ascii :=
  if is_ASCII_upper_alpha c then ascii_of_N (code c + 32) else c.

(** "Remove any leading and trailing C0 control or space from input." *)
Fixpoint trim_leading (s : string) : string :=
  match s with
  | EmptyString => EmptyString
  | String c rest =>
      if is_C0_control_or_space c then trim_leading rest else s
  end.

Fixpoint trim_trailing (s : string) : string :=
  match s with
  | EmptyString => EmptyString
  | String c rest =>
      match trim_trailing rest with
      | EmptyString =>
          if is_C0_control_or_space c then EmptyString
          else String c EmptyString
      | kept => String c kept
      end
  end.

(** "Remove all ASCII tab or newline from input." *)
Fixpoint remove_tab_or_newline (s : string) : string :=
  match s with
  | EmptyString => EmptyString
  | String c rest =>
      if is_ASCII_tab_or_newline c then remove_tab_or_newline rest
      else String c (remove_tab_or_newline rest)
  end.

Definition preprocess (input : string) : string :=
  remove_tab_or_newline (trim_trailing (trim_leading input)).

(** A found scheme and the input that remains after its ":". *)
Definition scanned : Type := option (string * string).

(** No scheme state, with no base URL: "return failure". *)
Definition no_scheme_state : scanned := None.

(** Scheme state: the buffer grows while the characters are ASCII
    alphanumeric, "+", "-" or "."; a ":" ends the scheme; anything else,
    the end of the input included, leads to the no scheme state. *)
Fixpoint scheme_state (buffer input : string) : scanned :=
  match input with
  | EmptyString => no_scheme_state
  | String c remaining =>
      if is_ASCII_alphanumeric c
         || Ascii.eqb c "+" || Ascii.eqb c "-" || Ascii.eqb c "."
      then scheme_state (buffer ++ String (ASCII_lowercase c) "") remaining
      else if Ascii.eqb c ":" then Some (buffer, remaining)
      else no_scheme_state
  end.

(** Scheme start state: a scheme starts with an ASCII alpha. *)
Definition scheme_start_state (input : string) : scanned :=
  match input with
  | EmptyString => no_scheme_state
  | String c remaining =>
      if is_ASCII_alpha c
      then scheme_state (String (ASCII_lowercase c) "") remaining
      else no_scheme_state
  end.

Definition special_schemes : list string :=
  ["ftp"; "file"; "http"; "https"; "ws"; "wss"].

Definition is_special (scheme : string) : bool :=
  existsb (String.eqb scheme) special_schemes.

Section BasicParser.

(** [authority scheme remaining]: the parser does not return failure
    for a URL of this scheme whose input after "scheme:" is
    [remaining], when it has an authority to parse. *)
Variable authority : string -> string -> bool.

(** After the scheme: a special scheme (the file scheme too) and a
    remaining input starting with "//" lead to the authority; any
    other input is a path or an opaque path, where the parser never
    returns failure. *)
Definition after_scheme (scheme remaining : string) : bool :=
  if is_special scheme || String.prefix "//" remaining
  then authority scheme remaining
  else true.

(** The basic URL parser with no base: [true] when it returns a URL,
    [false] when it returns failure. *)
Definition parses (input : string) : bool :=
  match scheme_start_state (preprocess input) with
  | Some (scheme, remaining) => after_scheme scheme remaining
  | None => false
  end.

End BasicParser.

(** Two instances of the parameter, for the examples: the one that
    fails on every authority, and one that accepts, for the schemes
    [http] and [https], "//" followed by a host made of ASCII letters
    and dots and then the end of the input or a path. *)
Definition no_authority (scheme remaining : string) : bool := false.

Fixpoint plain_host (seen : bool) (s : string) : bool :=
  match s with
  | EmptyString => seen
  | String c rest =>
      if is_ASCII_alpha c then plain_host true rest
      else if Ascii.eqb c "." then seen && plain_host seen rest
      else Ascii.eqb c "/" && seen
  end.

Definition plain_authority (scheme remaining : string) : bool :=
  (String.eqb scheme "http" || String.eqb scheme "https")
  && match remaining with
     | String c0 (String c1 host) =>
         Ascii.eqb c0 "/" && Ascii.eqb c1 "/" && plain_host false host
     | _ => false
     end.

(** The characters of a scheme after its first, and the strings the
    scheme states read as a scheme up to a ":". *)
Definition is_scheme_char (c : ascii) : bool :=
  is_ASCII_alphanumeric c
  || Ascii.eqb c "+" || Ascii.eqb c "-" || Ascii.eqb c ".".

Definition is_scheme (s : string) : bool :=
  match s with
  | EmptyString => false
  | String c rest => is_ASCII_alpha c && all_chars is_scheme_char rest
  end.

Fixpoint lowercase (s : string) : string :=
  match s with
  | EmptyString => EmptyString
  | String c rest => String (ASCII_lowercase c) (lowercase rest)
  end.

End URL.

(** ** embed.ts *)

(** *** Errors

    Both [throw] statements of the file raise a plain [Error]; the two
    sites are told apart by a constructor each, named as the spec names
    them, which keeps the values the message is built from.
    [GotRejection] is a rejection of the promise returned by [got],
    which [await] rethrows as it is: a transport failure, or whatever
    else the client rejects with.  [DecodeError] belongs to the raw-byte
    accessor. *)

Record GotError : Type := {
  error_name : string;
  error_message : string
}.

Inductive Error : Type :=
| InvalidPayload (base64Data : string)
| UnexpectedResponseStatus (statusCode : Z) (uri : string)
| GotRejection (reason : GotError)
| DecodeError.

Definition double_quote : string := String (ascii_of_N 34) "".

Definition line_feed : string := String (ascii_of_N 10) "".

(** The [message] of the thrown error: the two template strings of the
    file, and the message of the client's error.  No message is given
    anywhere for the decode error. *)
Definition message (e : Error) : option string :=
  match e with
  | InvalidPayload base64Data =>
      Some ("Invalid base64 data: "
            ++ double_quote ++ base64Data ++ double_quote
            ++ ". If you're trying to pass a URI, use Embed.fromUri() instead.")
  | UnexpectedResponseStatus statusCode uri =>
      Some ("Got status code " ++ NilZero.string_of_int (Z.to_int statusCode)
            ++ " when fetching " ++ uri)
  | GotRejection reason => Some (error_message reason)
  | DecodeError => None
  end.

(** How a call ends: with a value, or with a thrown error. *)
Inductive outcome (A : Type) : Type :=
| Returns (a : A)
| Throws (e : Error).
Arguments Returns {A} a.
Arguments Throws {A} e.

(** *** What [got] gives to its caller

    [got(url, options)] is one call of the HTTP client, a GET when the
    options name no method; its promise is fulfilled with a response or
    rejected with an error of the client's.  A [Network] is what the
    promise of each call settles to; what the client does on the wire
    before that is the subject of the next part. *)

Inductive ResponseType : Type := text | json | buffer.

Record Request : Type := {
  url : string;
  responseType : ResponseType
}.

Record Response : Type := {
  statusCode : Z;
  body : list byte
}.

Inductive Settled : Type :=
| Fulfilled (response : Response)
| Rejected (reason : GotError).

(** An [async] computation: it is done, or it awaits a [got] request
    and goes on with what the request settled to. *)
Inductive Promise (A : Type) : Type :=
| resolve (a : A)
| reject (e : Error)
| await_got (request : Request) (k : Settled -> Promise A).
Arguments resolve {A} a.
Arguments reject {A} e.
Arguments await_got {A} request k.

Definition settle {A : Type} (o : outcome A) : Promise A :=
  match o with
  | Returns a => resolve a
  | Throws e => reject e
  end.

(** What each call of [got] settles to, given the calls made before. *)
Definition Network : Type := list Request -> Request -> Settled.

(** Running a computation against a network: the calls of [got], in
    order, and the outcome. *)
Fixpoint run {A : Type} (net : Network) (log : list Request) (p : Promise A)
  : list Request * outcome A :=
  match p with
  | resolve a => (log, Returns a)
  | reject e => (log, Throws e)
  | await_got request k =>
      run net (log ++ [request])%list (k (net log request))
  end.


Definition result {A : Type} (net : Network) (p : Promise A) : outcome A :=
  snd (run net [] p).

(** *** The wire, and what [got] does on it

    embed.ts passes [responseType] and nothing else, so the client runs
    with its defaults: [throwHttpErrors: true], [followRedirect: true]
    with [maxRedirects: 10], and [retry] with [limit: 2] on the status
    and error codes below.  An endpoint answers each GET, knowing the
    GETs sent before, with a response or with a transport failure.
    [http_location] is the Location header, resolved against the URL of
    the request.  The wait before a retry is not represented. *)

Record HttpResponse : Type := {
  http_status : Z;
  http_statusMessage : string;
  http_location : option string;
  http_body : list byte
}.

Record TransportError : Type := {
  transport_code : string;
  transport_message : string
}.

Inductive Answer : Type :=
| Answered (response : HttpResponse)
| Failed (error : TransportError).

Definition Endpoint : Type := list string -> string -> Answer.

Definition retry_limit : nat := 2.

Definition retry_statusCodes : list Z :=
  [408; 413; 429; 500; 502; 503; 504; 521; 522; 524]%Z.

Definition retry_errorCodes : list string :=
  ["ETIMEDOUT"; "ECONNRESET"; "EADDRINUSE"; "ECONNREFUSED"; "EPIPE";
   "ENOTFOUND"; "ENETUNREACH"; "EAI_AGAIN"].

Definition maxRedirects : nat := 10.

Definition redirect_statusCodes : list Z :=
  [300; 301; 302; 303; 304; 307; 308]%Z.

(** The answers after which the client tries again. *)
Definition retriable (answer : Answer) : bool :=
  match answer with
  | Answered response =>
      existsb (Z.eqb (http_status response)) retry_statusCodes
  | Failed error =>
      existsb (String.eqb (transport_code error)) retry_errorCodes
  end.

(** The URL the client goes to next: a redirect status with a Location. *)
Definition redirect_target (response : HttpResponse) : option string :=
  match http_location response with
  | Some next =>
      if existsb (Z.eqb (http_status response)) redirect_statusCodes
      then Some next
      else None
  | None => None
  end.

(** With [followRedirect] on, the statuses that are not an error for
    the client: 2xx and 304. *)
Definition isResponseOk (status : Z) : bool :=
  ((200 <=? status)%Z && (status <=? 299)%Z) || (status =? 304)%Z.

(** The errors the client rejects with. *)
Definition HTTPError (response : HttpResponse) : GotError :=
  {| error_name := "HTTPError";
     error_message :=
       "Response code "
       ++ NilZero.string_of_int (Z.to_int (http_status response))
       ++ " (" ++ http_statusMessage response ++ ")" |}.

Definition RequestError (error : TransportError) : GotError :=
  {| error_name := "RequestError";
     error_message := transport_message error |}.

Definition MaxRedirectsError : GotError :=
  {| error_name := "MaxRedirectsError";
     error_message := "Redirected 10 times. Aborting." |}.

(** The GETs to one URL: the first, and one more after each retriable
    answer while retries are left.  Gives the GETs sent so far, the
    retries left and the last answer. *)
Fixpoint attempts (endpoint : Endpoint) (retries : nat) (sent : list string)
    (target : string) : list string * nat * Answer :=
  let answer := endpoint sent target in
  let sent' := (sent ++ [target])%list in
  match retries with
  | O => (sent', O, answer)
  | S fewer =>
      if retriable answer
      then attempts endpoint fewer sent' target
      else (sent', retries, answer)
  end.

(** The whole call: redirects are followed while some are left, a
    transport failure and a status that is not ok reject the promise,
    an ok response fulfils it. *)
Fixpoint follow (endpoint : Endpoint) (redirects retries : nat)
    (sent : list string) (target : string) : list string * Settled :=
  let '(sent', retries', answer) := attempts endpoint retries sent target in
  match answer with
  | Failed error => (sent', Rejected (RequestError error))
  | Answered response =>
      match redirect_target response with
      | Some next =>
          match redirects with
          | O => (sent', Rejected MaxRedirectsError)
          | S fewer => follow endpoint fewer retries' sent' next
          end
      | None =>
          if isResponseOk (http_status response)
          then (sent', Fulfilled {| statusCode := http_status response;
                                    body := http_body response |})
          else (sent', Rejected (HTTPError response))
      end
  end.

(** [got(url, {responseType})] against an endpoint: the GETs sent, those
    before the call included, and what the promise settles to. *)
Definition got (endpoint : Endpoint) (sent : list string) (request : Request)
  : list string * Settled :=
  follow endpoint maxRedirects retry_limit sent (url request).

(** The network a computation sees when the client talks to this
    endpoint, each call starting on a wire with no GET sent. *)
Definition got_over (endpoint : Endpoint) : Network :=
  fun _ request => snd (got endpoint [] request).

(** Running a computation against an endpoint: the GETs on the wire, in
    order, and the outcome. *)
Fixpoint run_http {A : Type} (endpoint : Endpoint) (sent : list string)
    (p : Promise A) : list string * outcome A :=
  match p with
  | resolve a => (sent, Returns a)
  | reject e => (sent, Throws e)
  | await_got request k =>
      let '(sent', settled) := got endpoint sent request in
      run_http endpoint sent' (k settled)
  end.



(** An endpoint with one answer to everything. *)
Definition always (answer : Answer) : Endpoint := fun _ _ => answer.

(** The client in front of an endpoint that answers every GET with the
    same status and body, and no Location. *)
Definition mock_endpoint (status : Z) (content : list byte) : Network :=
  got_over (always (Answered {| http_status := status;
                                http_statusMessage := "";
                                http_location := None;
                                http_body := content |})).

(** The client in front of an endpoint that refuses every connection. *)
Definition refused : Answer :=
  Failed {| transport_code := "ECONNREFUSED";
            transport_message := "connect ECONNREFUSED" |}.


(** An endpoint that refuses the first connection and serves the
    content from then on, and the client in front of it. *)
Definition refuses_once (content : list byte) : Endpoint :=
  fun sent _ =>
    match sent with
    | [] => refused
    | _ :: _ => Answered {| http_status := 200;
                            http_statusMessage := "OK";
                            http_location := None;
                            http_body := content |}
    end.

Definition flaky_endpoint (content : list byte) : Network :=
  got_over (refuses_once content).


Definition moved (to : string) (content : list byte) : Endpoint :=
  fun _ target =>
    if String.eqb target to
    then Answered {| http_status := 200;
                     http_statusMessage := "OK";
                     http_location := None;
                     http_body := content |}
    else Answered {| http_status := 302;
                     http_statusMessage := "Found";
                     http_location := Some to;
                     http_body := [] |}.

(** *** Top of the file: [isURL] *)

(** [function isURL(str)]: [true] when [new URL(str)] did not throw.
    [authority] is the parameter of the URL parser. *)
Definition isURL (authority : string -> string -> bool) (str : string)
  : bool :=
  URL.parses authority str.

(** *** [class Embed] *)

Module Embed.

(** The two [public readonly] fields. *)
Record t : Type := mk {
  contentType : string;
  base64Data : string
}.

Section Class.

Variable authority : string -> string -> bool.

(** [constructor(contentType, base64Data)]: the fields are set from the
    arguments, and the body throws when [base64Data] is a URL. *)
Definition constructor (contentType base64Data : string) : outcome t :=
  if isURL authority base64Data
  then Throws (InvalidPayload base64Data)
  else Returns {| contentType := contentType; base64Data := base64Data |}.

(** [static async fromUri(contentType, uri)]. *)
Definition fromUri (contentType uri : string) : Promise t :=
  await_got {| url := uri; responseType := buffer |} (fun settled =>
    match settled with
    | Rejected reason => reject (GotRejection reason)
    | Fulfilled response =>
        if negb (statusCode response =? 200)%Z
        then reject (UnexpectedResponseStatus (statusCode response) uri)
        else settle (constructor contentType (Base64.encode (body response)))
    end).

End Class.

(** The payload as base64 text: the field [base64Data]. *)
Definition asBase64 (e : t) : string := base64Data e.

(** Modelled from the spec: the raw-byte accessor [asBytes()], which
    embed.ts does not have.  "Decode is a pure, deterministic,
    side-effect-free transform of the stored base64 string; decoding
    malformed base64 fails with a DecodeError." *)
Definition asBytes (e : t) : outcome (list byte) :=
  match Base64.decode (base64Data e) with
  | Some bytes => Returns bytes
  | None => Throws DecodeError
  end.

End Embed.

(** * Properties *)

(** ** Strings *)

Lemma contains_app c s t :
  contains c (s ++ t) = contains c s || contains c t.
Proof.
  induction s as [|x s IH]; simpl; [reflexivity|].
  now rewrite IH, orb_assoc.
Qed.

Lemma all_chars_app p s t :
  all_chars p (s ++ t) = all_chars p s && all_chars p t.
Proof.
  induction s as [|x s IH]; simpl; [reflexivity|].
  now rewrite IH, andb_assoc.
Qed.

Lemma all_chars_not_contains p c s :
  p c = false -> all_chars p s = true -> contains c s = false.
Proof.
  intros Hc. induction s as [|x s IH]; simpl; [reflexivity|].
  intros H. apply andb_prop in H as [Hx Hs].
  rewrite (IH Hs), orb_false_r.
  destruct (Ascii.eqb_spec x c) as [->|]; congruence.
Qed.

Lemma contains_not_all_chars p c s :
  p c = false -> contains c s = true -> all_chars p s = false.
Proof.
  intros Hc Hin. destruct (all_chars p s) eqn:E; [|reflexivity].
  now rewrite (all_chars_not_contains p c s Hc E) in Hin.
Qed.

(** ** Facts about the codec *)

Module Base64Facts.
Import Base64.

Lemma sextet_of_char_of_sextet n :
  n < 64 -> sextet_of_char (char_of_sextet n) = Some n.
Proof.
  intros H. rewrite <- (N2Nat.id n).
  assert (Hm : (N.to_nat n < 64)%nat) by lia.
  generalize dependent (N.to_nat n). clear. intros m Hm.
  do 64 (destruct m as [|m]; [reflexivity|]). lia.
Qed.

Lemma char_of_sextet_of_char c n :
  sextet_of_char c = Some n -> n < 64 /\ char_of_sextet n = c.
Proof.
  destruct c as [[] [] [] [] [] [] [] []]; vm_compute; intros H;
    try discriminate; injection H as <-; split; reflexivity.
Qed.

Lemma in_alphabet_char_of_sextet n :
  n < 64 -> in_alphabet (char_of_sextet n) = true.
Proof.
  intros H. unfold in_alphabet. now rewrite sextet_of_char_of_sextet.
Qed.

Lemma in_alphabet_not_pad c :
  in_alphabet c = true -> Ascii.eqb c pad_char = false.
Proof.
  destruct (Ascii.eqb_spec c pad_char) as [->|]; [discriminate|reflexivity].
Qed.

Lemma byte_of_to_N b : byte_of_N (Byte.to_N b) = b.
Proof. unfold byte_of_N. now rewrite Byte.of_to_N. Qed.

Lemma to_N_lt b : Byte.to_N b < 256.
Proof. pose proof (Byte.to_N_bounded b). lia. Qed.

(** Linear arithmetic with division and remainder by constants. *)
Ltac div_lia := zify; Z.to_euclidean_division_equations; lia.

(** Induction three bytes at a time. *)
Lemma list_ind3 {A} (P : list A -> Prop) :
  P [] -> (forall a, P [a]) -> (forall a b, P [a; b]) ->
  (forall a b c rest, P rest -> P (a :: b :: c :: rest)) ->
  forall l, P l.
Proof.
  intros H0 H1 H2 H3 l.
  enough (P l /\ (forall a, P (a :: l)) /\ (forall a b, P (a :: b :: l)))
    by tauto.
  induction l as [|x l (IH0 & IH1 & IH2)]; repeat split; auto.
Qed.

(** Induction four characters at a time. *)
Lemma string_ind4 (P : string -> Prop) :
  P "" -> (forall a, P (String a "")) ->
  (forall a b, P (String a (String b ""))) ->
  (forall a b c, P (String a (String b (String c "")))) ->
  (forall a b c d rest, P rest ->
     P (String a (String b (String c (String d rest))))) ->
  forall s, P s.
Proof.
  intros H0 H1 H2 H3 H4 s.
  enough (P s /\ (forall a, P (String a s))
          /\ (forall a b, P (String a (String b s)))
          /\ (forall a b c, P (String a (String b (String c s)))))
    by tauto.
  induction s as [|x s (IH0 & IH1 & IH2 & IH3)]; repeat split; auto.
Qed.

Lemma final1_encode a :
  a < 256 ->
  final1 (char_of_sextet (a / 4)) (char_of_sextet ((a mod 4) * 16))
  = Some [byte_of_N a].
Proof.
  intros Ha. unfold final1.
  rewrite !sextet_of_char_of_sextet by div_lia.
  replace (((a mod 4) * 16) mod 16 =? 0) with true
    by (symmetry; apply N.eqb_eq; div_lia).
  do 3 f_equal. div_lia.
Qed.

Lemma final2_encode a b :
  a < 256 -> b < 256 ->
  final2 (char_of_sextet (a / 4)) (char_of_sextet ((a mod 4) * 16 + b / 16))
         (char_of_sextet ((b mod 16) * 4))
  = Some [byte_of_N a; byte_of_N b].
Proof.
  intros Ha Hb. unfold final2.
  rewrite !sextet_of_char_of_sextet by div_lia.
  replace (((b mod 16) * 4) mod 4 =? 0) with true
    by (symmetry; apply N.eqb_eq; div_lia).
  f_equal. f_equal; [|f_equal]; f_equal; div_lia.
Qed.

Lemma quantum_encode a b c :
  a < 256 -> b < 256 -> c < 256 ->
  quantum (char_of_sextet (a / 4)) (char_of_sextet ((a mod 4) * 16 + b / 16))
          (char_of_sextet ((b mod 16) * 4 + c / 64)) (char_of_sextet (c mod 64))
  = Some [byte_of_N a; byte_of_N b; byte_of_N c].
Proof.
  intros Ha Hb Hc. unfold quantum.
  rewrite !sextet_of_char_of_sextet by div_lia.
  f_equal. f_equal; [|f_equal; [|f_equal]]; f_equal; div_lia.
Qed.

(** Decoding undoes encoding. *)
Lemma decode_encode bs : decode (encode bs) = Some bs.
Proof.
  induction bs as [|a|a b|a b c rest IH] using list_ind3.
  - reflexivity.
  - pose proof (to_N_lt a). cbn [encode ch append decode].
    cbn. rewrite final1_encode by assumption.
    now rewrite byte_of_to_N.
  - pose proof (to_N_lt a). pose proof (to_N_lt b).
    cbn [encode ch append decode].
    replace (Ascii.eqb (char_of_sextet ((Byte.to_N b mod 16) * 4)) pad_char)
      with false
      by (symmetry; apply in_alphabet_not_pad, in_alphabet_char_of_sextet;
          div_lia).
    cbn. rewrite final2_encode by assumption.
    now rewrite !byte_of_to_N.
  - pose proof (to_N_lt a). pose proof (to_N_lt b). pose proof (to_N_lt c).
    cbn [encode ch append decode].
    replace (Ascii.eqb (char_of_sextet (Byte.to_N c mod 64)) pad_char)
      with false
      by (symmetry; apply in_alphabet_not_pad, in_alphabet_char_of_sextet;
          div_lia).
    rewrite quantum_encode, IH by assumption.
    now rewrite !byte_of_to_N.
Qed.

Lemma to_N_byte_of_N n : n < 256 -> Byte.to_N (byte_of_N n) = n.
Proof.
  intros H. unfold byte_of_N. destruct (Byte.of_N n) as [b|] eqn:E.
  - now apply Byte.to_of_N.
  - apply Byte.of_N_None_iff in E. lia.
Qed.

Ltac sextets :=
  repeat match goal with
    | H : sextet_of_char ?c = Some ?n |- _ =>
        apply char_of_sextet_of_char in H; destruct H as [? <-]
    end.

Lemma final1_sound c0 c1 bs :
  final1 c0 c1 = Some bs -> encode bs = String c0 (String c1 "==").
Proof.
  unfold final1.
  destruct (sextet_of_char c0) as [s0|] eqn:E0; [|discriminate].
  destruct (sextet_of_char c1) as [s1|] eqn:E1; [|discriminate].
  destruct (N.eqb_spec (s1 mod 16) 0) as [Hz|]; [|discriminate].
  intros [= <-]. sextets. cbn [encode ch append].
  rewrite to_N_byte_of_N by div_lia.
  do 2 f_equal; [|f_equal]; f_equal; div_lia.
Qed.

Lemma final2_sound c0 c1 c2 bs :
  final2 c0 c1 c2 = Some bs ->
  encode bs = String c0 (String c1 (String c2 "=")).
Proof.
  unfold final2.
  destruct (sextet_of_char c0) as [s0|] eqn:E0; [|discriminate].
  destruct (sextet_of_char c1) as [s1|] eqn:E1; [|discriminate].
  destruct (sextet_of_char c2) as [s2|] eqn:E2; [|discriminate].
  destruct (N.eqb_spec (s2 mod 4) 0) as [Hz|]; [|discriminate].
  intros [= <-]. sextets. cbn [encode ch append].
  rewrite !to_N_byte_of_N by div_lia.
  f_equal; [|f_equal; [|f_equal]]; f_equal; div_lia.
Qed.

Lemma quantum_sound c0 c1 c2 c3 group rest :
  quantum c0 c1 c2 c3 = Some group ->
  encode (group ++ rest)
  = String c0 (String c1 (String c2 (String c3 (encode rest)))).
Proof.
  unfold quantum.
  destruct (sextet_of_char c0) as [s0|] eqn:E0; [|discriminate].
  destruct (sextet_of_char c1) as [s1|] eqn:E1; [|discriminate].
  destruct (sextet_of_char c2) as [s2|] eqn:E2; [|discriminate].
  destruct (sextet_of_char c3) as [s3|] eqn:E3; [|discriminate].
  intros [= <-]. sextets. cbn [encode ch append app].
  rewrite !to_N_byte_of_N by div_lia.
  f_equal; [|f_equal; [|f_equal; [|f_equal]]]; f_equal; div_lia.
Qed.

Lemma padding_quad a b c d rest :
  padding (String a (String b (String c (String d rest)))) = padding rest.
Proof.
  unfold padding. cbn [String.length].
  replace (N.of_nat (S (S (S (S (String.length rest))))) mod 4)
    with (N.of_nat (String.length rest) mod 4) by div_lia.
  reflexivity.
Qed.

(** Encoding undoes decoding, up to the padding of the last group. *)
Lemma encode_decode s : forall bs, decode s = Some bs -> encode bs = pad s.
Proof.
  induction s as [|a|a b|a b c|a b c d rest IH] using string_ind4;
    intros bs; cbn [decode].
  - now intros [= <-].
  - discriminate.
  - intros H. now rewrite (final1_sound _ _ _ H).
  - intros H. now rewrite (final2_sound _ _ _ _ H).
  - unfold pad. rewrite padding_quad.
    destruct (Ascii.eqb_spec d pad_char) as [->|Hd].
    + destruct (String.eqb_spec rest "") as [->|]; [|discriminate].
      destruct (Ascii.eqb_spec c pad_char) as [->|Hc]; intros H.
      * now rewrite (final1_sound _ _ _ H).
      * now rewrite (final2_sound _ _ _ _ H).
    + destruct (quantum a b c d) as [group|] eqn:Eq; [|discriminate].
      destruct (decode rest) as [bytes|] eqn:Er; [|discriminate].
      intros [= <-]. rewrite (quantum_sound _ _ _ _ _ _ Eq).
      cbn [append]. do 4 f_equal. now apply IH.
Qed.

(** [valid] recognises exactly the texts that decode. *)
Lemma final1_tail1 c0 c1 :
  tail1 c0 c1 = match final1 c0 c1 with Some _ => true | None => false end.
Proof.
  unfold tail1, final1, in_alphabet, low_bits_clear.
  destruct (sextet_of_char c0), (sextet_of_char c1); try reflexivity.
  cbn. now destruct (_ =? 0).
Qed.

Lemma final2_tail2 c0 c1 c2 :
  tail2 c0 c1 c2
  = match final2 c0 c1 c2 with Some _ => true | None => false end.
Proof.
  unfold tail2, final2, in_alphabet, low_bits_clear.
  destruct (sextet_of_char c0), (sextet_of_char c1), (sextet_of_char c2);
    try reflexivity.
  cbn. now destruct (_ =? 0).
Qed.

Lemma valid_decode s :
  valid s = match decode s with Some _ => true | None => false end.
Proof.
  induction s as [|a|a b|a b c|a b c d rest IH] using string_ind4;
    cbn [valid decode]; try reflexivity.
  - apply final1_tail1.
  - apply final2_tail2.
  - destruct (Ascii.eqb d pad_char).
    + destruct (String.eqb rest ""); [|reflexivity]. cbn [andb].
      destruct (Ascii.eqb c pad_char);
        [apply final1_tail1 | apply final2_tail2].
    + rewrite IH. unfold quantum, in_alphabet.
      destruct (sextet_of_char a), (sextet_of_char b), (sextet_of_char c),
        (sextet_of_char d); try reflexivity.
      cbn. now destruct (decode rest).
Qed.

Lemma valid_encode bs : valid (encode bs) = true.
Proof. now rewrite valid_decode, decode_encode. Qed.

(** A valid text is made of alphabet characters and "=" only. *)
Lemma tail1_chars c0 c1 :
  tail1 c0 c1 = true -> in_alphabet c0 = true /\ in_alphabet c1 = true.
Proof.
  unfold tail1, low_bits_clear, in_alphabet. intros H.
  apply andb_prop in H as [H0 H1].
  split; [assumption|]. now destruct (sextet_of_char c1).
Qed.

Lemma tail2_chars c0 c1 c2 :
  tail2 c0 c1 c2 = true ->
  in_alphabet c0 = true /\ in_alphabet c1 = true /\ in_alphabet c2 = true.
Proof.
  unfold tail2, low_bits_clear, in_alphabet. intros H.
  apply andb_prop in H as [H H2]. apply andb_prop in H as [H0 H1].
  repeat split; try assumption. now destruct (sextet_of_char c2).
Qed.

Lemma valid_chars s : valid s = true -> all_chars base64_char s = true.
Proof.
  unfold base64_char.
  induction s as [|a|a b|a b c|a b c d rest IH] using string_ind4;
    cbn [valid all_chars]; try reflexivity; try discriminate.
  - intros H. apply tail1_chars in H as [-> ->]. reflexivity.
  - intros H. apply tail2_chars in H as (-> & -> & ->). reflexivity.
  - destruct (Ascii.eqb d pad_char) eqn:Ed.
    + intros H. apply andb_prop in H as [Hr H].
      apply String.eqb_eq in Hr as ->. rewrite !orb_true_r.
      destruct (Ascii.eqb c pad_char) eqn:Ec.
      * apply tail1_chars in H as [-> ->]. now rewrite orb_true_r.
      * apply tail2_chars in H as (-> & -> & ->). reflexivity.
    + intros H. repeat (apply andb_prop in H as [H ?]).
      rewrite IH by assumption.
      repeat match goal with
        | E : in_alphabet _ = true |- _ => rewrite E; clear E
        end.
      reflexivity.
Qed.

Lemma colon_not_base64 : base64_char ":"%char = false.
Proof. reflexivity. Qed.

Lemma bang_not_base64 : base64_char "!"%char = false.
Proof. reflexivity. Qed.

(** No valid text contains a character foreign to base64. *)
Lemma valid_no_foreign c s :
  base64_char c = false -> valid s = true -> contains c s = false.
Proof.
  intros Hc Hv. eapply all_chars_not_contains; eauto using valid_chars.
Qed.

Lemma foreign_not_valid c s :
  base64_char c = false -> contains c s = true -> valid s = false.
Proof.
  intros Hc Hin. destruct (valid s) eqn:E; [|reflexivity].
  now rewrite (valid_no_foreign c s Hc E) in Hin.
Qed.

(** The valid texts are the encodings of the byte sequences, with or
    without their padding. *)
Lemma strip_padding_keep c s :
  Ascii.eqb c pad_char = false ->
  strip_padding (String c s) = String c (strip_padding s).
Proof. intros H. cbn. rewrite H. now destruct (strip_padding s). Qed.

Lemma strip_padding_inner c d s :
  strip_padding (String c (String d s)) = String c (strip_padding (String d s))
  \/ strip_padding (String d s) = "".
Proof.
  cbn [strip_padding].
  destruct (match strip_padding s with
            | "" => if Ascii.eqb d pad_char then "" else String d ""
            | String a kept => String d (String a kept)
            end); [now right|now left].
Qed.

Lemma strip_padding_quad a b c d s :
  Ascii.eqb d pad_char = false ->
  strip_padding (String a (String b (String c (String d s))))
  = String a (String b (String c (String d (strip_padding s)))).
Proof.
  intros Hd. pose proof (strip_padding_keep d s Hd) as H3.
  assert (H2 : strip_padding (String c (String d s))
               = String c (String d (strip_padding s)))
    by (destruct (strip_padding_inner c d s) as [->|E]; congruence).
  assert (H1 : strip_padding (String b (String c (String d s)))
               = String b (String c (String d (strip_padding s))))
    by (destruct (strip_padding_inner b c (String d s)) as [->|E]; congruence).
  destruct (strip_padding_inner a b (String c (String d s))) as [->|E];
    congruence.
Qed.

Lemma sextet_not_pad c n :
  sextet_of_char c = Some n -> Ascii.eqb c pad_char = false.
Proof.
  intros H. apply in_alphabet_not_pad. unfold in_alphabet. now rewrite H.
Qed.

Lemma final1_chars c0 c1 bs :
  final1 c0 c1 = Some bs -> Ascii.eqb c1 pad_char = false.
Proof.
  unfold final1. destruct (sextet_of_char c0); [|discriminate].
  destruct (sextet_of_char c1) eqn:E; [|discriminate].
  intros _. eauto using sextet_not_pad.
Qed.

Lemma final2_chars c0 c1 c2 bs :
  final2 c0 c1 c2 = Some bs -> Ascii.eqb c2 pad_char = false.
Proof.
  unfold final2. destruct (sextet_of_char c0); [|discriminate].
  destruct (sextet_of_char c1); [|discriminate].
  destruct (sextet_of_char c2) eqn:E; [|discriminate].
  intros _. eauto using sextet_not_pad.
Qed.

Lemma decode_is_encoding s :
  forall bs, decode s = Some bs ->
             s = encode bs \/ s = strip_padding (encode bs).
Proof.
  induction s as [|a|a b|a b c|a b c d rest IH] using string_ind4;
    intros bs; cbn [decode].
  - intros [= <-]. now left.
  - discriminate.
  - intros H. right. rewrite (final1_sound _ _ _ H).
    pose proof (final1_chars _ _ _ H) as Hb.
    cbn. now rewrite Hb.
  - intros H. right. rewrite (final2_sound _ _ _ _ H).
    pose proof (final2_chars _ _ _ _ H) as Hc.
    cbn. now rewrite Hc.
  - destruct (Ascii.eqb_spec d pad_char) as [->|Hd].
    + destruct (String.eqb_spec rest "") as [->|]; [|discriminate].
      destruct (Ascii.eqb_spec c pad_char) as [->|Hc]; intros H; left.
      * now rewrite (final1_sound _ _ _ H).
      * now rewrite (final2_sound _ _ _ _ H).
    + destruct (quantum a b c d) as [group|] eqn:Eq; [|discriminate].
      destruct (decode rest) as [bytes|] eqn:Er; [|discriminate].
      intros [= <-]. rewrite (quantum_sound _ _ _ _ _ _ Eq).
      apply Ascii.eqb_neq in Hd.
      destruct (IH _ eq_refl) as [->|E]; [now left|right].
      rewrite strip_padding_quad by assumption. now rewrite <- E.
Qed.

Lemma valid_strip_encode bs : valid (strip_padding (encode bs)) = true.
Proof.
  induction bs as [|a|a b|a b c rest IH] using list_ind3.
  - reflexivity.
  - pose proof (to_N_lt a). cbn [encode ch append].
    assert (Hc : Ascii.eqb (char_of_sextet ((Byte.to_N a mod 4) * 16)) pad_char
                 = false)
      by (apply in_alphabet_not_pad, in_alphabet_char_of_sextet; div_lia).
    cbn. rewrite Hc. cbn [valid].
    now rewrite final1_tail1, final1_encode.
  - pose proof (to_N_lt a). pose proof (to_N_lt b). cbn [encode ch append].
    assert (Hc : Ascii.eqb (char_of_sextet ((Byte.to_N b mod 16) * 4)) pad_char
                 = false)
      by (apply in_alphabet_not_pad, in_alphabet_char_of_sextet; div_lia).
    cbn. rewrite Hc. cbn [valid].
    now rewrite final2_tail2, final2_encode.
  - pose proof (to_N_lt a). pose proof (to_N_lt b). pose proof (to_N_lt c).
    cbn [encode ch append].
    assert (Hc : Ascii.eqb (char_of_sextet (Byte.to_N c mod 64)) pad_char
                 = false)
      by (apply in_alphabet_not_pad, in_alphabet_char_of_sextet; div_lia).
    rewrite strip_padding_quad by assumption. cbn [valid].
    rewrite Hc, IH, !in_alphabet_char_of_sextet by div_lia. reflexivity.
Qed.

Lemma valid_iff_encoding s :
  valid s = true
  <-> exists bs, s = encode bs \/ s = strip_padding (encode bs).
Proof.
  split.
  - rewrite valid_decode. destruct (decode s) as [bs|] eqn:E; [|discriminate].
    intros _. exists bs. now apply decode_is_encoding.
  - intros (bs & [->| ->]); [apply valid_encode|apply valid_strip_encode].
Qed.

Lemma encode_no_colon bs : contains ":" (encode bs) = false.
Proof. apply valid_no_foreign; [reflexivity | apply valid_encode]. Qed.

(** The size of the text: four characters for every group of three
    bytes, the last group included when it is short. *)
Lemma encode_length bs :
  String.length (encode bs) = (4 * ((List.length bs + 2) / 3))%nat.
Proof.
  induction bs as [|a|a b|a b c rest IH] using list_ind3;
    try reflexivity.
  cbn [encode ch append String.length List.length]. rewrite IH.
  replace (S (S (S (List.length rest))) + 2)%nat
    with ((List.length rest + 2) + 1 * 3)%nat by lia.
  rewrite Nat.div_add by lia. lia.
Qed.

Lemma encode_chars bs : all_chars base64_char (encode bs) = true.
Proof. apply valid_chars, valid_encode. Qed.

(** Two byte sequences with the same text are the same. *)
Lemma encode_injective bs1 bs2 : encode bs1 = encode bs2 -> bs1 = bs2.
Proof.
  intros H. apply (f_equal decode) in H.
  rewrite !decode_encode in H. congruence.
Qed.

End Base64Facts.

(** ** Facts about the URL parser *)

Module URLFacts.
Import URL.

(** The two preprocessing steps only remove characters. *)
Lemma contains_trim_leading c s :
  contains c (trim_leading s) = true -> contains c s = true.
Proof.
  induction s as [|x s IH]; cbn [trim_leading]; [easy|].
  destruct (is_C0_control_or_space x); [|easy].
  intros H. cbn. now rewrite (IH H), orb_true_r.
Qed.

Lemma contains_trim_trailing c s :
  contains c (trim_trailing s) = true -> contains c s = true.
Proof.
  induction s as [|x s IH]; cbn [trim_trailing]; [easy|].
  destruct (trim_trailing s) as [|y kept].
  - destruct (is_C0_control_or_space x); [easy|].
    cbn. rewrite orb_false_r. now intros ->.
  - cbn [contains] in *. intros H.
    apply orb_prop in H as [->|H]; [reflexivity|].
    now rewrite (IH H), orb_true_r.
Qed.

Lemma contains_remove_tab_or_newline c s :
  contains c (remove_tab_or_newline s) = true -> contains c s = true.
Proof.
  induction s as [|x s IH]; cbn [remove_tab_or_newline]; [easy|].
  destruct (is_ASCII_tab_or_newline x); cbn [contains]; intros H.
  - now rewrite (IH H), orb_true_r.
  - apply orb_prop in H as [->|H]; [reflexivity|].
    now rewrite (IH H), orb_true_r.
Qed.

Lemma contains_preprocess c s :
  contains c (preprocess s) = true -> contains c s = true.
Proof.
  unfold preprocess. intros H.
  now apply contains_trim_leading, contains_trim_trailing,
    contains_remove_tab_or_newline.
Qed.

(** A scheme is found only before a ":". *)
Lemma scheme_state_colon input :
  forall buffer found,
    scheme_state buffer input = Some found -> contains ":" input = true.
Proof.
  induction input as [|c remaining IH]; intros buffer found;
    cbn [scheme_state contains]; [discriminate|].
  destruct (is_ASCII_alphanumeric c || Ascii.eqb c "+" || Ascii.eqb c "-"
            || Ascii.eqb c ".").
  - intros H. now rewrite (IH _ _ H), orb_true_r.
  - destruct (Ascii.eqb c ":"); [reflexivity|discriminate].
Qed.

Lemma scheme_start_state_colon input found :
  scheme_start_state input = Some found -> contains ":" input = true.
Proof.
  destruct input as [|c remaining]; cbn [scheme_start_state contains];
    [discriminate|].
  destruct (is_ASCII_alpha c); [|discriminate].
  intros H. now rewrite (scheme_state_colon _ _ _ H), orb_true_r.
Qed.

(** With no base URL, only an input with a ":" parses. *)
Lemma parses_colon authority input :
  parses authority input = true -> contains ":" input = true.
Proof.
  unfold parses.
  destruct (scheme_start_state (preprocess input)) as [[scheme remaining]|]
    eqn:E; [|discriminate].
  intros _. eauto using contains_preprocess, scheme_start_state_colon.
Qed.

Lemma no_colon_no_parse authority input :
  contains ":" input = false -> parses authority input = false.
Proof.
  intros H. destruct (parses authority input) eqn:E; [|reflexivity].
  now rewrite (parses_colon _ _ E) in H.
Qed.

(** *** Blanks around the input *)

Lemma trim_leading_blank s :
  all_chars is_C0_control_or_space s = true -> trim_leading s = "".
Proof.
  induction s as [|c s IH]; cbn [all_chars trim_leading]; [reflexivity|].
  intros H. apply andb_prop in H as [-> Hs]. now apply IH.
Qed.

Lemma trim_trailing_blank s :
  all_chars is_C0_control_or_space s = true -> trim_trailing s = "".
Proof.
  induction s as [|c s IH]; cbn [all_chars trim_trailing]; [reflexivity|].
  intros H. apply andb_prop in H as [-> Hs]. now rewrite (IH Hs).
Qed.

Lemma trim_leading_app_blank lead s :
  all_chars is_C0_control_or_space lead = true ->
  trim_leading (lead ++ s) = trim_leading s.
Proof.
  induction lead as [|c lead IH]; cbn [all_chars append trim_leading];
    [reflexivity|].
  intros H. apply andb_prop in H as [-> Hs]. now apply IH.
Qed.

Lemma trim_trailing_app_blank s trail :
  all_chars is_C0_control_or_space trail = true ->
  trim_trailing (s ++ trail) = trim_trailing s.
Proof.
  intros H. induction s as [|c s IH]; cbn [append trim_trailing].
  - now apply trim_trailing_blank.
  - now rewrite IH.
Qed.

Lemma trim_app_blank s trail :
  all_chars is_C0_control_or_space trail = true ->
  trim_trailing (trim_leading (s ++ trail)) = trim_trailing (trim_leading s).
Proof.
  intros H. induction s as [|c s IH]; cbn [append trim_leading].
  - now rewrite (trim_leading_blank _ H).
  - destruct (is_C0_control_or_space c); [exact IH|].
    now apply (trim_trailing_app_blank (String c s)).
Qed.

Lemma preprocess_blanks lead s trail :
  all_chars is_C0_control_or_space lead = true ->
  all_chars is_C0_control_or_space trail = true ->
  preprocess (lead ++ s ++ trail) = preprocess s.
Proof.
  intros Hl Ht. unfold preprocess.
  now rewrite trim_leading_app_blank, trim_app_blank.
Qed.

(** *** Inputs that start with a scheme *)

Lemma scheme_char_not_blank c :
  is_scheme_char c = true -> is_C0_control_or_space c = false.
Proof.
  destruct c as [[] [] [] [] [] [] [] []]; vm_compute; congruence.
Qed.

Lemma alpha_scheme_char c : is_ASCII_alpha c = true -> is_scheme_char c = true.
Proof.
  destruct c as [[] [] [] [] [] [] [] []]; vm_compute; congruence.
Qed.

Lemma not_blank_kept c :
  is_C0_control_or_space c = false -> is_ASCII_tab_or_newline c = false.
Proof.
  destruct c as [[] [] [] [] [] [] [] []]; vm_compute; congruence.
Qed.

Lemma trim_trailing_keep c s :
  is_C0_control_or_space c = false ->
  trim_trailing (String c s) = String c (trim_trailing s).
Proof. intros H. cbn. rewrite H. now destruct (trim_trailing s). Qed.

(** A prefix without blanks goes through the preprocessing untouched. *)
Lemma trim_remove_after_prefix z y :
  all_chars is_scheme_char z = true ->
  remove_tab_or_newline (trim_trailing (z ++ String ":" y))
  = z ++ String ":" (remove_tab_or_newline (trim_trailing y)).
Proof.
  induction z as [|d z IH]; cbn [append all_chars]; intros H.
  - now rewrite trim_trailing_keep by reflexivity.
  - apply andb_prop in H as [Hd Hz]. apply scheme_char_not_blank in Hd.
    rewrite trim_trailing_keep by assumption.
    cbn [remove_tab_or_newline]. rewrite (not_blank_kept _ Hd).
    now rewrite (IH Hz).
Qed.

Lemma preprocess_after_prefix c x y :
  all_chars is_scheme_char (String c x) = true ->
  preprocess (String c x ++ String ":" y)
  = String c x ++ String ":" (remove_tab_or_newline (trim_trailing y)).
Proof.
  intros H. unfold preprocess.
  assert (Hc : is_C0_control_or_space c = false)
    by (cbn in H; apply andb_prop in H as [H _];
        now apply scheme_char_not_blank).
  replace (trim_leading (String c x ++ String ":" y))
    with (String c x ++ String ":" y)
    by (cbn [append trim_leading]; now rewrite Hc).
  now apply trim_remove_after_prefix.
Qed.

Lemma append_String_r (s : string) (c : ascii) (t : string) :
  (s ++ String c "") ++ t = s ++ String c t.
Proof. induction s as [|x s IH]; cbn; [reflexivity|now rewrite IH]. Qed.

Lemma scheme_state_scan s :
  forall buffer remaining,
    all_chars is_scheme_char s = true ->
    scheme_state buffer (s ++ String ":" remaining)
    = Some (buffer ++ lowercase s, remaining).
Proof.
  induction s as [|c s IH]; intros buffer remaining;
    cbn [all_chars append scheme_state lowercase].
  - intros _. cbn.
    replace (buffer ++ "") with buffer
      by (clear; induction buffer as [|x b IH]; cbn; congruence).
    reflexivity.
  - intros H. apply andb_prop in H as [Hc Hs].
    unfold is_scheme_char in Hc. rewrite Hc.
    rewrite (IH _ _ Hs). now rewrite append_String_r.
Qed.

Lemma scheme_start_state_scan scheme remaining :
  is_scheme scheme = true ->
  scheme_start_state (scheme ++ String ":" remaining)
  = Some (lowercase scheme, remaining).
Proof.
  destruct scheme as [|c s]; cbn [is_scheme]; [discriminate|].
  intros H. apply andb_prop in H as [Hc Hs].
  cbn [append scheme_start_state lowercase]. rewrite Hc.
  now rewrite (scheme_state_scan _ _ _ Hs).
Qed.

(** A scheme that is not special, followed by something that does not
    start with "//": the input parses, whatever the host parser. *)
Lemma parses_without_authority authority scheme rest :
  is_scheme scheme = true ->
  is_special (lowercase scheme) = false ->
  String.prefix "//" (remove_tab_or_newline (trim_trailing rest)) = false ->
  parses authority (scheme ++ String ":" rest) = true.
Proof.
  intros Hs Hn Hp. unfold parses.
  destruct scheme as [|c s]; [discriminate|].
  rewrite preprocess_after_prefix.
  - rewrite (scheme_start_state_scan _ _ Hs).
    unfold after_scheme. now rewrite Hn, Hp.
  - cbn [is_scheme] in Hs. apply andb_prop in Hs as [Hc Hs].
    cbn [all_chars]. now rewrite (alpha_scheme_char _ Hc), Hs.
Qed.

Lemma parses_blanks authority lead s trail :
  all_chars is_C0_control_or_space lead = true ->
  all_chars is_C0_control_or_space trail = true ->
  parses authority (lead ++ s ++ trail) = parses authority s.
Proof.
  intros Hl Ht. unfold parses. now rewrite preprocess_blanks.
Qed.

End URLFacts.

(** ** Facts about embed.ts *)

Lemma run_settle {A : Type} (net : Network) (log : list Request)
    (o : outcome A) :
  run net log (settle o) = (log, o).
Proof. now destruct o. Qed.


(** ** Facts about the client *)

Module GotFacts.








End GotFacts.

Section EmbedFacts.

Variable authority : string -> string -> bool.

Lemma isURL_colon str : isURL authority str = true -> contains ":" str = true.
Proof. apply URLFacts.parses_colon. Qed.

Lemma isURL_valid_base64 b : Base64.valid b = true -> isURL authority b = false.
Proof.
  intros H. apply URLFacts.no_colon_no_parse.
  now apply (Base64Facts.valid_no_foreign ":").
Qed.

Lemma isURL_encode bytes : isURL authority (Base64.encode bytes) = false.
Proof. apply isURL_valid_base64, Base64Facts.valid_encode. Qed.

Lemma constructor_not_URL c b :
  isURL authority b = false ->
  Embed.constructor authority c b = Returns (Embed.mk c b).
Proof. unfold Embed.constructor. now intros ->. Qed.

Lemma constructor_inv c b e :
  Embed.constructor authority c b = Returns e ->
  isURL authority b = false /\ e = Embed.mk c b.
Proof.
  unfold Embed.constructor. destruct (isURL authority b); [discriminate|].
  now intros [= <-].
Qed.

(** What one run of [fromUri] does, whatever the network answers. *)
Lemma run_fromUri net c uri :
  run net [] (Embed.fromUri authority c uri)
  = ([{| url := uri; responseType := buffer |}],
     match net [] {| url := uri; responseType := buffer |} with
     | Rejected reason => Throws (GotRejection reason)
     | Fulfilled response =>
         if (statusCode response =? 200)%Z
         then Returns (Embed.mk c (Base64.encode (body response)))
         else Throws (UnexpectedResponseStatus (statusCode response) uri)
     end).
Proof.
  unfold Embed.fromUri. cbn [run app].
  destruct (net [] _) as [response|reason]; [|reflexivity].
  destruct (statusCode response =? 200)%Z; cbn [negb]; [|reflexivity].
  now rewrite run_settle, constructor_not_URL by apply isURL_encode.
Qed.

(** [fromUri] resolves exactly when the request is fulfilled with status
    200: a rejected request and any other status give no Embed. *)
Lemma fromUri_resolves_iff net c uri e :
  result net (Embed.fromUri authority c uri) = Returns e
  <-> exists content,
      net [] {| url := uri; responseType := buffer |}
      = Fulfilled {| statusCode := 200; body := content |}
      /\ e = Embed.mk c (Base64.encode content).
Proof.
  unfold result. rewrite run_fromUri. cbn [snd].
  destruct (net [] _) as [[status content]|reason]; cbn [statusCode body].
  - destruct (Z.eqb_spec status 200) as [->|Hs]; split.
    + intros [= <-]. now exists content.
    + intros (content' & [= <-] & ->). reflexivity.
    + discriminate.
    + intros (content' & [= -> _] & _). now elim Hs.
  - split; [discriminate|]. now intros (content & [=] & _).
Qed.

Lemma fromUri_rejected net c uri reason :
  net [] {| url := uri; responseType := buffer |} = Rejected reason ->
  result net (Embed.fromUri authority c uri) = Throws (GotRejection reason).
Proof. intros H. unfold result. now rewrite run_fromUri, H. Qed.

(** C1. For every valid base64 string [b] and every content type [c],
    the constructor returns an Embed (the URL guard does not fire, a
    valid base64 string having no ":"), and the base64 payload of that
    Embed is exactly [b]. *)
Theorem constructor_valid_base64 (c b : string) :
  Base64.valid b = true ->
  isURL authority b = false
  /\ exists e,
      Embed.constructor authority c b = Returns e /\ Embed.asBase64 e = b.
Proof.
  intros H. pose proof (isURL_valid_base64 b H) as Hb.
  split; [assumption|]. eexists.
  split; [now apply constructor_not_URL|reflexivity].
Qed.

(** C2. For every string [u] that parses as a URL and every content
    type [c], the constructor throws the invalid-payload error, and so
    returns no Embed. *)
Theorem constructor_rejects_URL (c u : string) :
  isURL authority u = true ->
  Embed.constructor authority c u = Throws (InvalidPayload u)
  /\ forall e, Embed.constructor authority c u <> Returns e.
Proof.
  intros H. unfold Embed.constructor. rewrite H.
  split; [reflexivity|discriminate].
Qed.

(** C3. When the request of [fromUri c uri] is answered with status 200
    and body [B], [fromUri] resolves to an Embed whose raw bytes are
    exactly [B] and whose content type is [c]. *)
Theorem fromUri_status_200 (net : Network) (c uri : string) (B : list byte) :
  net [] {| url := uri; responseType := buffer |}
  = Fulfilled {| statusCode := 200; body := B |} ->
  exists e, result net (Embed.fromUri authority c uri) = Returns e
            /\ Embed.asBytes e = Returns B /\ Embed.contentType e = c.
Proof.
  intros H. unfold result. rewrite run_fromUri, H. cbn.
  eexists. split; [reflexivity|]. split; [|reflexivity].
  unfold Embed.asBytes. cbn. now rewrite Base64Facts.decode_encode.
Qed.




(** C6. When the request is answered with status 200 and body [B],
    [fromUri c uri] resolves to the very Embed the constructor returns
    for [c] and the base64 text of [B]. *)
Theorem fromUri_as_constructor (net : Network) (c uri : string)
    (B : list byte) :
  net [] {| url := uri; responseType := buffer |}
  = Fulfilled {| statusCode := 200; body := B |} ->
  exists e, result net (Embed.fromUri authority c uri) = Returns e
            /\ Embed.constructor authority c (Base64.encode B) = Returns e.
Proof.
  intros H. unfold result. rewrite run_fromUri, H. cbn.
  eexists. split; [reflexivity|]. apply constructor_not_URL, isURL_encode.
Qed.

(** C7. For every valid base64 string [b], the raw bytes of an Embed
    built from [b] are the bytes [b] decodes to, and encoding them gives
    [b] back with its canonical padding: [b] itself when its length is a
    multiple of four. *)
Theorem asBytes_round_trip (c b : string) :
  Base64.valid b = true ->
  exists e bytes,
    Embed.constructor authority c b = Returns e
    /\ Base64.decode b = Some bytes
    /\ Embed.asBytes e = Returns bytes
    /\ Base64.encode bytes = Base64.pad b
    /\ (Base64.padding b = "" -> Base64.encode bytes = b).
Proof.
  intros H. pose proof (isURL_valid_base64 b H) as Hb.
  rewrite Base64Facts.valid_decode in H.
  destruct (Base64.decode b) as [bytes|] eqn:E; [|discriminate].
  exists (Embed.mk c b), bytes.
  pose proof (Base64Facts.encode_decode b bytes E) as Hr.
  repeat split.
  - now apply constructor_not_URL.
  - unfold Embed.asBytes. cbn. now rewrite E.
  - assumption.
  - intros Hp. rewrite Hr. unfold Base64.pad. rewrite Hp.
    clear. induction b as [|x b IH]; cbn; [reflexivity|now rewrite IH].
Qed.

(** C9. For every Embed built from a string that is not valid base64,
    one holding a "!" for instance, asking for the raw bytes fails with
    the decode error. *)
Theorem asBytes_invalid_base64 (c b : string) (e : Embed.t) :
  Base64.valid b = false ->
  Embed.constructor authority c b = Returns e ->
  Embed.asBytes e = Throws DecodeError.
Proof.
  intros H He. apply constructor_inv in He as [_ ->].
  rewrite Base64Facts.valid_decode in H.
  unfold Embed.asBytes. cbn. now destruct (Base64.decode b).
Qed.

(** C10. Every Embed that is created, by the constructor or by
    [fromUri], holds a [base64Data] that does not parse as a URL; the
    base64 text of a byte sequence has no ":", so that the constructor
    call in [fromUri] never throws the invalid-payload error. *)
Theorem created_Embed_not_URL :
  (forall c b e,
      Embed.constructor authority c b = Returns e ->
      isURL authority (Embed.base64Data e) = false)
  /\ (forall net c uri e,
      result net (Embed.fromUri authority c uri) = Returns e ->
      isURL authority (Embed.base64Data e) = false)
  /\ (forall bytes, contains ":" (Base64.encode bytes) = false)
  /\ (forall net c uri b,
      result net (Embed.fromUri authority c uri) <> Throws (InvalidPayload b)).
Proof.
  repeat split.
  - intros c b e H. now apply constructor_inv in H as [Hb ->].
  - intros net c uri e. unfold result. rewrite run_fromUri. cbn.
    destruct (net [] _) as [response|reason]; [|discriminate].
    destruct (statusCode response =? 200)%Z; [|discriminate].
    intros [= <-]. apply isURL_encode.
  - apply Base64Facts.encode_no_colon.
  - intros net c uri b. unfold result. rewrite run_fromUri. cbn.
    destruct (net [] _) as [response|reason]; [|discriminate].
    destruct (statusCode response =? 200)%Z; discriminate.
Qed.

End EmbedFacts.

(** C8. There are strings that are not base64 (this one holds a "!")
    and do not parse as a URL, from which the constructor builds an
    Embed all the same: it checks nothing but the URL shape. *)
Theorem constructor_accepts_malformed :
  exists s,
    contains "!" s = true
    /\ Base64.valid s = false
    /\ forall authority c,
        isURL authority s = false
        /\ Embed.constructor authority c s
           = Returns (Embed.mk c s).
Proof.
  exists "SGVsbG8h!". repeat split.
Qed.

(** ** Further properties of embed.ts *)

Section EmbedMore.

Variable authority : string -> string -> bool.

(** X1. The constructor throws nothing but the invalid-payload error,
    with the payload as it was given, and only for a payload that holds
    a ":"; a payload without ":" is stored as it is, whatever it holds
    and whatever the content type. *)
Theorem constructor_throws_only_with_colon (c b : string) :
  (forall err,
      Embed.constructor authority c b = Throws err ->
      err = InvalidPayload b /\ contains ":" b = true)
  /\ (contains ":" b = false ->
      Embed.constructor authority c b = Returns (Embed.mk c b)).
Proof.
  split.
  - unfold Embed.constructor. intros err.
    destruct (isURL authority b) eqn:E; [|discriminate].
    intros [= <-]. split; [reflexivity|now apply (isURL_colon authority)].
  - intros H. apply constructor_not_URL.
    now apply URLFacts.no_colon_no_parse.
Qed.

(** X2. Blanks (spaces and C0 controls) before and after the payload do
    not change what the constructor decides: a URL between blanks is
    rejected like the URL itself, and a payload that is accepted is
    stored with its blanks. *)
Theorem constructor_blanks_around (c lead u trail : string) :
  all_chars URL.is_C0_control_or_space lead = true ->
  all_chars URL.is_C0_control_or_space trail = true ->
  isURL authority (lead ++ u ++ trail) = isURL authority u
  /\ Embed.constructor authority c (lead ++ u ++ trail)
     = if isURL authority u
       then Throws (InvalidPayload (lead ++ u ++ trail))
       else Returns (Embed.mk c (lead ++ u ++ trail)).
Proof.
  intros Hl Ht.
  assert (H : isURL authority (lead ++ u ++ trail) = isURL authority u)
    by now apply URLFacts.parses_blanks.
  split; [exact H|]. unfold Embed.constructor. now rewrite H.
Qed.

(** X3. A payload of the form scheme ":" rest is rejected whatever the
    host parser does, when the scheme is not a special one (ftp, file,
    http, https, ws, wss) and the rest, without its trailing blanks and
    its tabs and newlines, does not start with "//": data, mailto and
    urn URIs, a Windows path with a drive letter, "key:value". *)
Theorem constructor_rejects_opaque_URI (c scheme rest : string) :
  URL.is_scheme scheme = true ->
  URL.is_special (URL.lowercase scheme) = false ->
  String.prefix "//" (URL.remove_tab_or_newline (URL.trim_trailing rest))
  = false ->
  Embed.constructor authority c (scheme ++ String ":" rest)
  = Throws (InvalidPayload (scheme ++ String ":" rest)).
Proof.
  intros Hs Hn Hp. unfold Embed.constructor, isURL.
  now rewrite URLFacts.parses_without_authority.
Qed.

(** X4. The payload of an Embed that [fromUri] resolves to is the text
    of the body of a response with status 200: it has four characters
    for every three bytes of the body, rounded up, and only characters
    of the base64 alphabet and "=". *)
Theorem fromUri_payload_shape (net : Network) (c uri : string) (e : Embed.t) :
  result net (Embed.fromUri authority c uri) = Returns e ->
  exists content,
    net [] {| url := uri; responseType := buffer |}
    = Fulfilled {| statusCode := 200; body := content |}
    /\ Embed.base64Data e = Base64.encode content
    /\ String.length (Embed.base64Data e)
       = (4 * ((List.length content + 2) / 3))%nat
    /\ all_chars Base64.base64_char (Embed.base64Data e) = true.
Proof.
  intros H. apply fromUri_resolves_iff in H as (content & Hn & ->).
  exists content. cbn [Embed.base64Data].
  auto using Base64Facts.encode_length, Base64Facts.encode_chars.
Qed.

(** X5. [fromUri] loses nothing: two fetches that resolve to the same
    Embed were given the same content type and got the same body. *)
Theorem fromUri_injective (net1 net2 : Network) (c1 c2 uri1 uri2 : string)
    (e : Embed.t) :
  result net1 (Embed.fromUri authority c1 uri1) = Returns e ->
  result net2 (Embed.fromUri authority c2 uri2) = Returns e ->
  c1 = c2
  /\ exists content,
      net1 [] {| url := uri1; responseType := buffer |}
      = Fulfilled {| statusCode := 200; body := content |}
      /\ net2 [] {| url := uri2; responseType := buffer |}
         = Fulfilled {| statusCode := 200; body := content |}.
Proof.
  intros H1 H2.
  apply fromUri_resolves_iff in H1 as (content1 & Hn1 & ->).
  apply fromUri_resolves_iff in H2 as (content2 & Hn2 & [= -> E]).
  apply Base64Facts.encode_injective in E. subst content2.
  split; [reflexivity|]. now exists content1.
Qed.

(** X6. [fromUri] resolves to an Embed exactly when the request is
    fulfilled with status 200, and then to the Embed of the given
    content type and the text of the body: never on a rejected request,
    never on another status, 2xx or not. *)
Theorem fromUri_resolves_only_on_200 (net : Network) (c uri : string)
    (e : Embed.t) :
  result net (Embed.fromUri authority c uri) = Returns e
  <-> exists content,
      net [] {| url := uri; responseType := buffer |}
      = Fulfilled {| statusCode := 200; body := content |}
      /\ e = Embed.mk c (Base64.encode content).
Proof. apply fromUri_resolves_iff. Qed.

(** X7. When [fromUri] rejects, the error is the client's own, as the
    client gave it, or the unexpected-status error with the status of
    the response, which is not 200, and the uri: the body of such a
    response plays no part, and no other error comes out. *)
Theorem fromUri_rejects_inv (net : Network) (c uri : string) (err : Error) :
  result net (Embed.fromUri authority c uri) = Throws err ->
  (exists reason,
      net [] {| url := uri; responseType := buffer |} = Rejected reason
      /\ err = GotRejection reason)
  \/ (exists response,
      net [] {| url := uri; responseType := buffer |} = Fulfilled response
      /\ statusCode response <> 200%Z
      /\ err = UnexpectedResponseStatus (statusCode response) uri).
Proof.
  unfold result. rewrite run_fromUri. cbn [snd].
  destruct (net [] _) as [response|reason].
  - destruct (Z.eqb_spec (statusCode response) 200) as [|Hs]; [discriminate|].
    intros [= <-]. right. now exists response.
  - intros [= <-]. left. now exists reason.
Qed.

End EmbedMore.

Lemma constructor_throws_only_with_colon_witness :
  Embed.constructor URL.plain_authority "image/png" "https://example.com/x"
  = Throws (InvalidPayload "https://example.com/x")
  /\ contains ":" "https://example.com/x" = true
  /\ contains ":" "not base64 at all!" = false
  /\ Embed.constructor URL.plain_authority "" "not base64 at all!"
     = Returns (Embed.mk "" "not base64 at all!").
Proof.
  split; [reflexivity|].
  split.
  { destruct (constructor_throws_only_with_colon URL.plain_authority
                "image/png" "https://example.com/x") as [H _].
    apply (H (InvalidPayload "https://example.com/x")). reflexivity. }
  split; [reflexivity|].
  apply (constructor_throws_only_with_colon URL.plain_authority ""
           "not base64 at all!").
  reflexivity.
Defined.

Lemma constructor_blanks_around_witness :
  all_chars URL.is_C0_control_or_space "  " = true
  /\ all_chars URL.is_C0_control_or_space line_feed = true
  /\ isURL URL.plain_authority ("  " ++ "https://example.com/x" ++ line_feed)
     = isURL URL.plain_authority "https://example.com/x"
  /\ Embed.constructor URL.plain_authority "image/png"
       ("  " ++ "https://example.com/x" ++ line_feed)
     = if isURL URL.plain_authority "https://example.com/x"
       then Throws (InvalidPayload
                      ("  " ++ "https://example.com/x" ++ line_feed))
       else Returns (Embed.mk "image/png"
                       ("  " ++ "https://example.com/x" ++ line_feed)).
Proof.
  split; [reflexivity|]. split; [reflexivity|].
  apply (constructor_blanks_around URL.plain_authority "image/png" "  "
           "https://example.com/x" line_feed); reflexivity.
Defined.

Lemma constructor_rejects_opaque_URI_witness :
  URL.is_scheme "data" = true
  /\ URL.is_special (URL.lowercase "data") = false
  /\ String.prefix "//"
       (URL.remove_tab_or_newline
          (URL.trim_trailing "image/png;base64,SGVsbG8="))
     = false
  /\ Embed.constructor URL.no_authority "image/png"
       ("data" ++ String ":" "image/png;base64,SGVsbG8=")
     = Throws (InvalidPayload
                 ("data" ++ String ":" "image/png;base64,SGVsbG8=")).
Proof.
  split; [reflexivity|]. split; [reflexivity|]. split; [reflexivity|].
  apply (constructor_rejects_opaque_URI URL.no_authority "image/png" "data"
           "image/png;base64,SGVsbG8="); reflexivity.
Defined.

Lemma fromUri_payload_shape_witness :
  result (mock_endpoint 200 ["H"; "e"; "l"; "l"; "o"]%byte)
    (Embed.fromUri URL.plain_authority "text/plain" "https://example.com/x")
  = Returns (Embed.mk "text/plain" "SGVsbG8=")
  /\ exists content,
      mock_endpoint 200 ["H"; "e"; "l"; "l"; "o"]%byte []
        {| url := "https://example.com/x"; responseType := buffer |}
      = Fulfilled {| statusCode := 200; body := content |}
      /\ "SGVsbG8=" = Base64.encode content
      /\ String.length "SGVsbG8=" = (4 * ((List.length content + 2) / 3))%nat
      /\ all_chars Base64.base64_char "SGVsbG8=" = true.
Proof.
  split; [reflexivity|].
  apply (fromUri_payload_shape URL.plain_authority
           (mock_endpoint 200 ["H"; "e"; "l"; "l"; "o"]%byte) "text/plain"
           "https://example.com/x" (Embed.mk "text/plain" "SGVsbG8=")).
  reflexivity.
Defined.

Lemma fromUri_injective_witness :
  result (mock_endpoint 200 ["H"; "i"]%byte)
    (Embed.fromUri URL.plain_authority "text/plain" "https://example.com/x")
  = Returns (Embed.mk "text/plain" "SGk=")
  /\ result (mock_endpoint 200 ["H"; "i"]%byte)
       (Embed.fromUri URL.plain_authority "text/plain" "https://example.org/y")
     = Returns (Embed.mk "text/plain" "SGk=")
  /\ "text/plain" = "text/plain"
  /\ exists content,
      mock_endpoint 200 ["H"; "i"]%byte []
        {| url := "https://example.com/x"; responseType := buffer |}
      = Fulfilled {| statusCode := 200; body := content |}
      /\ mock_endpoint 200 ["H"; "i"]%byte []
           {| url := "https://example.org/y"; responseType := buffer |}
         = Fulfilled {| statusCode := 200; body := content |}.
Proof.
  split; [reflexivity|]. split; [reflexivity|].
  apply (fromUri_injective URL.plain_authority
           (mock_endpoint 200 ["H"; "i"]%byte)
           (mock_endpoint 200 ["H"; "i"]%byte)
           "text/plain" "text/plain"
           "https://example.com/x" "https://example.org/y"
           (Embed.mk "text/plain" "SGk=")); reflexivity.
Defined.

Lemma fromUri_resolves_only_on_200_witness :
  result (mock_endpoint 200 ["H"; "i"]%byte)
    (Embed.fromUri URL.plain_authority "text/plain" "https://example.com/x")
  = Returns (Embed.mk "text/plain" "SGk=")
  /\ exists content,
      mock_endpoint 200 ["H"; "i"]%byte []
        {| url := "https://example.com/x"; responseType := buffer |}
      = Fulfilled {| statusCode := 200; body := content |}
      /\ Embed.mk "text/plain" "SGk="
         = Embed.mk "text/plain" (Base64.encode content).
Proof.
  split; [reflexivity|].
  apply (fromUri_resolves_only_on_200 URL.plain_authority
           (mock_endpoint 200 ["H"; "i"]%byte) "text/plain"
           "https://example.com/x" (Embed.mk "text/plain" "SGk=")).
  reflexivity.
Defined.

Lemma fromUri_rejects_inv_witness :
  result (mock_endpoint 204 [])
    (Embed.fromUri URL.plain_authority "text/plain" "https://example.com/x")
  = Throws (UnexpectedResponseStatus 204 "https://example.com/x")
  /\ ((exists reason,
          mock_endpoint 204 [] []
            {| url := "https://example.com/x"; responseType := buffer |}
          = Rejected reason
          /\ UnexpectedResponseStatus 204 "https://example.com/x"
             = GotRejection reason)
      \/ (exists response,
          mock_endpoint 204 [] []
            {| url := "https://example.com/x"; responseType := buffer |}
          = Fulfilled response
          /\ statusCode response <> 200%Z
          /\ UnexpectedResponseStatus 204 "https://example.com/x"
             = UnexpectedResponseStatus (statusCode response)
                 "https://example.com/x")).
Proof.
  split; [reflexivity|].
  apply (fromUri_rejects_inv URL.plain_authority (mock_endpoint 204 [])
           "text/plain" "https://example.com/x"
           (UnexpectedResponseStatus 204 "https://example.com/x")).
  reflexivity.
Defined.

(** ** The theorems at concrete inputs *)

Lemma constructor_valid_base64_witness :
  Base64.valid "SGVsbG8=" = true
  /\ isURL URL.plain_authority "SGVsbG8=" = false
  /\ exists e,
      Embed.constructor URL.plain_authority "text/plain" "SGVsbG8=" = Returns e
      /\ Embed.asBase64 e = "SGVsbG8=".
Proof.
  split; [reflexivity|].
  apply (constructor_valid_base64 URL.plain_authority "text/plain" "SGVsbG8=").
  reflexivity.
Defined.

Lemma constructor_rejects_URL_witness :
  isURL URL.plain_authority "https://example.com/x" = true
  /\ Embed.constructor URL.plain_authority "image/png" "https://example.com/x"
     = Throws (InvalidPayload "https://example.com/x")
  /\ forall e,
      Embed.constructor URL.plain_authority "image/png" "https://example.com/x"
      <> Returns e.
Proof.
  split; [reflexivity|].
  apply (constructor_rejects_URL URL.plain_authority "image/png"
           "https://example.com/x").
  reflexivity.
Defined.

Lemma fromUri_status_200_witness :
  mock_endpoint 200 ["H"; "i"]%byte []
    {| url := "https://example.com/x"; responseType := buffer |}
  = Fulfilled {| statusCode := 200; body := ["H"; "i"]%byte |}
  /\ exists e,
      result (mock_endpoint 200 ["H"; "i"]%byte)
        (Embed.fromUri URL.plain_authority "text/plain" "https://example.com/x")
      = Returns e
      /\ Embed.asBytes e = Returns ["H"; "i"]%byte
      /\ Embed.contentType e = "text/plain".
Proof.
  split; [reflexivity|].
  apply (fromUri_status_200 URL.plain_authority
           (mock_endpoint 200 ["H"; "i"]%byte) "text/plain"
           "https://example.com/x" ["H"; "i"]%byte).
  reflexivity.
Defined.





Lemma fromUri_as_constructor_witness :
  mock_endpoint 200 ["H"; "i"]%byte []
    {| url := "https://example.com/x"; responseType := buffer |}
  = Fulfilled {| statusCode := 200; body := ["H"; "i"]%byte |}
  /\ exists e,
      result (mock_endpoint 200 ["H"; "i"]%byte)
        (Embed.fromUri URL.plain_authority "text/plain" "https://example.com/x")
      = Returns e
      /\ Embed.constructor URL.plain_authority "text/plain"
           (Base64.encode ["H"; "i"]%byte)
         = Returns e.
Proof.
  split; [reflexivity|].
  apply (fromUri_as_constructor URL.plain_authority
           (mock_endpoint 200 ["H"; "i"]%byte) "text/plain"
           "https://example.com/x" ["H"; "i"]%byte).
  reflexivity.
Defined.

Lemma asBytes_round_trip_witness :
  Base64.valid "SGVsbG8" = true
  /\ exists e bytes,
      Embed.constructor URL.plain_authority "text/plain" "SGVsbG8" = Returns e
      /\ Base64.decode "SGVsbG8" = Some bytes
      /\ Embed.asBytes e = Returns bytes
      /\ Base64.encode bytes = Base64.pad "SGVsbG8"
      /\ (Base64.padding "SGVsbG8" = "" -> Base64.encode bytes = "SGVsbG8").
Proof.
  split; [reflexivity|].
  apply (asBytes_round_trip URL.plain_authority "text/plain" "SGVsbG8").
  reflexivity.
Defined.

Lemma asBytes_invalid_base64_witness :
  Base64.valid "SGVsbG8h!" = false
  /\ Embed.constructor URL.plain_authority "text/plain" "SGVsbG8h!"
     = Returns (Embed.mk "text/plain" "SGVsbG8h!")
  /\ Embed.asBytes (Embed.mk "text/plain" "SGVsbG8h!")
     = Throws DecodeError.
Proof.
  split; [reflexivity|]. split; [reflexivity|].
  apply (asBytes_invalid_base64 URL.plain_authority "text/plain" "SGVsbG8h!");
    reflexivity.
Defined.

Lemma created_Embed_not_URL_witness :
  Embed.constructor URL.plain_authority "text/plain" "SGVsbG8="
  = Returns (Embed.mk "text/plain" "SGVsbG8=")
  /\ isURL URL.plain_authority "SGVsbG8=" = false
  /\ result (mock_endpoint 200 ["H"; "i"]%byte)
       (Embed.fromUri URL.plain_authority "text/plain" "https://example.com/x")
     = Returns (Embed.mk "text/plain" "SGk=")
  /\ isURL URL.plain_authority "SGk=" = false
  /\ contains ":" (Base64.encode ["H"; "i"]%byte) = false.
Proof.
  destruct (created_Embed_not_URL URL.plain_authority) as (H1 & H2 & H3 & _).
  split; [reflexivity|].
  split.
  { apply (H1 "text/plain" "SGVsbG8="
              (Embed.mk "text/plain" "SGVsbG8=")).
    reflexivity. }
  split; [reflexivity|].
  split; [|apply H3].
  apply (H2 (mock_endpoint 200 ["H"; "i"]%byte) "text/plain"
            "https://example.com/x"
            (Embed.mk "text/plain" "SGk=")).
  reflexivity.
Defined.

(** ** Worked examples *)

Example message_204 :
  message (UnexpectedResponseStatus 204 "https://example.com/x")
  = Some "Got status code 204 when fetching https://example.com/x".
Proof. reflexivity. Qed.

(** A status the client hands over, and one it rejects by itself. *)
Example fromUri_204 :
  run (mock_endpoint 204 []) []
    (Embed.fromUri URL.plain_authority "image/png" "https://example.com/x")
  = ([{| url := "https://example.com/x"; responseType := buffer |}],
     Throws (UnexpectedResponseStatus 204 "https://example.com/x")).
Proof. reflexivity. Qed.

Example fromUri_500 :
  run_http (always (Answered {| http_status := 500;
                                http_statusMessage := "Internal Server Error";
                                http_location := None;
                                http_body := [] |})) []
    (Embed.fromUri URL.plain_authority "image/png" "https://example.com/x")
  = (["https://example.com/x"; "https://example.com/x";
      "https://example.com/x"],
     Throws (GotRejection
               {| error_name := "HTTPError";
                  error_message
                  := "Response code 500 (Internal Server Error)" |})).
Proof. reflexivity. Qed.

(** A first connection that is refused is tried again by the client,
    inside the one call, and the fetch resolves. *)
Example fromUri_flaky :
  run_http (refuses_once ["H"; "i"]%byte) []
    (Embed.fromUri URL.plain_authority "text/plain" "https://example.com/x")
  = (["https://example.com/x"; "https://example.com/x"],
     Returns (Embed.mk "text/plain" "SGk="))
  /\ run (flaky_endpoint ["H"; "i"]%byte) []
       (Embed.fromUri URL.plain_authority "text/plain" "https://example.com/x")
     = ([{| url := "https://example.com/x"; responseType := buffer |}],
        Returns (Embed.mk "text/plain" "SGk=")).
Proof. split; reflexivity. Qed.

(** An endpoint that cannot be reached: three GETs, and the client's
    error. *)
Example fromUri_unreachable :
  run_http (always refused) []
    (Embed.fromUri URL.plain_authority "text/plain" "https://example.com/x")
  = (["https://example.com/x"; "https://example.com/x";
      "https://example.com/x"],
     Throws (GotRejection {| error_name := "RequestError";
                             error_message := "connect ECONNREFUSED" |})).
Proof. reflexivity. Qed.

(** A redirect is followed to where the content is. *)
Example fromUri_moved :
  run_http (moved "https://example.org/y" ["H"; "i"]%byte) []
    (Embed.fromUri URL.plain_authority "text/plain" "https://example.com/x")
  = (["https://example.com/x"; "https://example.org/y"],
     Returns (Embed.mk "text/plain" "SGk=")).
Proof. reflexivity. Qed.

Example fromUri_200 :
  result (mock_endpoint 200 ["H"; "e"; "l"; "l"; "o"]%byte)
    (Embed.fromUri URL.plain_authority "text/plain" "https://example.com/x")
  = Returns (Embed.mk "text/plain" "SGVsbG8=").
Proof. reflexivity. Qed.

Example after_scheme_examples :
  map (URL.parses URL.no_authority)
    ["foo:/bar"; "foo://bar"; "urn:isbn:0451450523"; "http:x"; "a:"; ":a"]
  = [true; false; true; false; true; false].
Proof. reflexivity. Qed.

(** With an opaque path the host parser is never asked. *)
Example isURL_data_URL :
  forall authority, isURL authority "data:text/plain;base64,SGVsbG8=" = true.
Proof. reflexivity. Qed.

(** Text that only looks like "scheme:rest" is taken for a URL. *)
Example isURL_lookalikes :
  map (isURL URL.no_authority)
    ["localhost:8080"; "Note: see below"; "C:\Users\me\cat.png"; "12:30";
     "/9j/4AAQ:"]
  = [true; true; true; false; false].
Proof. reflexivity. Qed.

(** A data URL needs no authority: it is rejected whatever the host
    parser does. *)
Example constructor_data_URL :
  Embed.constructor URL.no_authority "text/plain"
    "data:text/plain;base64,SGVsbG8="
  = Throws (InvalidPayload "data:text/plain;base64,SGVsbG8=").
Proof. reflexivity. Qed.


Example scheme_of_https :
  URL.scheme_start_state "HTTPS://example.com/x"
  = Some ("https", "//example.com/x").
Proof. reflexivity. Qed.

Example parses_examples :
  map (URL.parses URL.plain_authority)
    ["https://example.com/x"; "  https://example.com/x "; "http://";
     "data:text/plain;base64,SGVsbG8="; "mailto:someone@example.com";
     "SGVsbG8="; "hello world!"; "/a/b"; "example.com/x"; "1a:b"; ""]
  = [true; true; false; true; true; false; false; false; false; false; false].
Proof. reflexivity. Qed.

Example encode_hello :
  Base64.encode ["H"; "e"; "l"; "l"; "o"]%byte = "SGVsbG8=".
Proof. reflexivity. Qed.

Example decode_hello :
  Base64.decode "SGVsbG8=" = Some ["H"; "e"; "l"; "l"; "o"]%byte.
Proof. reflexivity. Qed.

Example decode_hello_unpadded :
  Base64.decode "SGVsbG8" = Some ["H"; "e"; "l"; "l"; "o"]%byte.
Proof. reflexivity. Qed.

Example decode_bang : Base64.decode "SGVsbG8h!" = None.
Proof. reflexivity. Qed.

Example decode_stray_bits : Base64.decode "QR==" = None.
Proof. reflexivity. Qed.

Example valid_examples :
  map Base64.valid
    ["SGVsbG8="; "SGVsbG8"; "SGVsbG8h!"; "QR=="; "QQ=="; "Q"; "QQ="; "=";
     "===="]
  = [true; true; false; false; true; false; false; false; false].
Proof. reflexivity. Qed.
